(** * AutoDifferentiation: SingleVarDiff.h and MultiVarDiff.h

    A shallow embedding of the two expression-template engines
    ([namespace singleVarDiff] and [namespace multiVarDiff]) and of the
    demonstration of [main.cpp].

    The C++ code encodes the shape of an expression in its type and picks the
    branches of the combinators with [if constexpr]; here an expression is a
    value of an inductive type and the same branches are taken by pattern
    matching.  The C++ [float] is IEEE-754 binary32, embedded as [spec_float]
    with a 24 bit significand and [emax = 128], every operation rounding to
    nearest even. *)

From Stdlib Require Import ZArith Bool List Lia QArith.
From Stdlib Require Import Floats.SpecFloat.
From Stdlib Require Import Permutation.
Import ListNotations.
Local Open Scope Z_scope.

(** ** binary32 *)

Module Float32.

Definition prec : Z := 24.
Definition emax : Z := 128.

Definition float : Type := spec_float.

Definition add : float -> float -> float := SFadd prec emax.
Definition sub : float -> float -> float := SFsub prec emax.
Definition mul : float -> float -> float := SFmul prec emax.
Definition div : float -> float -> float := SFdiv prec emax.
Definition neg : float -> float := SFopp.

(** [static_cast<float>(n)] of an integer [n], and the integer literals
    that are converted where a [float] is expected. *)
Definition of_Z (n : Z) : float := binary_normalize prec emax n 0 false.

Definition zero : float := S754_zero false.
Definition one : float := Eval cbv in of_Z 1.

(** The value is a number (neither an infinity nor a NaN) that binary32
    can hold. *)
Definition is_finite (x : float) : bool :=
  match x with
  | S754_zero _ => true
  | S754_finite _ m e => bounded prec emax m e
  | _ => false
  end.

Definition is_zero (x : float) : bool :=
  match x with
  | S754_zero _ => true
  | _ => false
  end.

Definition is_inf (x : float) : bool :=
  match x with
  | S754_infinity _ => true
  | _ => false
  end.

Definition is_nan (x : float) : bool :=
  match x with
  | S754_nan => true
  | _ => false
  end.

(** Equality of floats up to the sign of a zero: [+0] and [-0] are
    identified, every other value only with itself. *)
Definition same_up_to_zero_sign (x y : float) : Prop :=
  x = y \/ (is_zero x = true /\ is_zero y = true).

(** The rational a finite float stands for. *)
Definition to_Q (x : float) : option Q :=
  match x with
  | S754_zero _ => Some 0%Q
  | S754_finite s m e =>
      Some ((if s then inject_Z (Zneg m) else inject_Z (Zpos m)) * Qpower 2 e)%Q
  | _ => None
  end.

(** [lo < x < hi] for a finite [x], read in the rationals. *)
Definition strictly_between (lo hi : Q) (x : float) : Prop :=
  exists q, to_Q x = Some q /\ (lo < q)%Q /\ (q < hi)%Q.

End Float32.

Import Float32.

(** ** SingleVarDiff.h *)

Module singleVarDiff.

(** [Expression<exprType, Ts...>]: one constructor per specialisation.
    [ZeroExpr] and [OneExpr] are the Constants tagged [Zero] and [One],
    [Constant] is the untagged one with its [value] member, [Var] is
    [Expression<ExprType::Variable>] (the word [Variable] is reserved in
    Rocq). *)
Inductive Expression : Type :=
| ZeroExpr
| OneExpr
| Constant (value : float)
| Var
| Sum (lhs rhs : Expression)
| Difference (lhs rhs : Expression)
| Product (lhs rhs : Expression)
| Quotient (lhs rhs : Expression).

(** [std::is_same_v<T, ZeroExpr>] *)
Definition is_ZeroExpr (e : Expression) : bool :=
  match e with
  | ZeroExpr => true
  | _ => false
  end.

(** [std::is_same_v<T, OneExpr>] *)
Definition is_OneExpr (e : Expression) : bool :=
  match e with
  | OneExpr => true
  | _ => false
  end.

(** [exprType == ExprType::Constant], and the member [value] when it
    holds: [static constexpr float value] of the two tagged Constants,
    the data member of the untagged one. *)
Definition Constant_value (e : Expression) : option float :=
  match e with
  | ZeroExpr => Some zero
  | OneExpr => Some one
  | Constant v => Some v
  | _ => None
  end.

(** [operator+(const Expression&, const Expression&)] *)
Definition operator_plus (lhs rhs : Expression) : Expression :=
  if is_ZeroExpr lhs then rhs
  else if is_ZeroExpr rhs then lhs
  else
    match Constant_value lhs, Constant_value rhs with
    | Some a, Some b => Constant (add a b)
    | _, _ => Sum lhs rhs
    end.

(** [operator-(const Expression&, const Expression&)] *)
Definition operator_minus (lhs rhs : Expression) : Expression :=
  if is_ZeroExpr rhs then lhs
  else
    match Constant_value lhs, Constant_value rhs with
    | Some a, Some b => Constant (sub a b)
    | _, _ => Difference lhs rhs
    end.

(** [operator*(const Expression&, const Expression&)] *)
Definition operator_times (lhs rhs : Expression) : Expression :=
  if is_ZeroExpr lhs || is_ZeroExpr rhs then ZeroExpr
  else if is_OneExpr lhs then rhs
  else if is_OneExpr rhs then lhs
  else
    match Constant_value lhs, Constant_value rhs with
    | Some a, Some b => Constant (mul a b)
    | _, _ => Product lhs rhs
    end.

(** [operator/(const Expression&, const Expression&)]; the first branch
    carries the source's comment [todo: fix this]. *)
Definition operator_div (lhs rhs : Expression) : Expression :=
  if is_ZeroExpr rhs then ZeroExpr
  else if is_ZeroExpr lhs then ZeroExpr
  else if is_OneExpr rhs then lhs
  else
    match Constant_value lhs, Constant_value rhs with
    | Some a, Some b => Constant (div a b)
    | _, _ => Quotient lhs rhs
    end.

(** The global operators with floats; [_Ef] has the float on the right,
    [_fE] on the left. *)
Definition operator_plus_Ef (lhs : Expression) (rhs : float) : Expression :=
  operator_plus lhs (Constant rhs).
Definition operator_plus_fE (lhs : float) (rhs : Expression) : Expression :=
  operator_plus (Constant lhs) rhs.
Definition operator_minus_Ef (lhs : Expression) (rhs : float) : Expression :=
  operator_plus lhs (Constant (neg rhs)).
Definition operator_minus_fE (lhs : float) (rhs : Expression) : Expression :=
  operator_minus (Constant lhs) rhs.
Definition operator_times_Ef (lhs : Expression) (rhs : float) : Expression :=
  operator_times lhs (Constant rhs).
Definition operator_times_fE (lhs : float) (rhs : Expression) : Expression :=
  operator_times (Constant lhs) rhs.
Definition operator_div_Ef (lhs : Expression) (rhs : float) : Expression :=
  operator_div lhs (Constant rhs).
Definition operator_div_fE (lhs : float) (rhs : Expression) : Expression :=
  operator_div (Constant lhs) rhs.

(** [operator()(float x)] *)
Fixpoint call (e : Expression) (x : float) : float :=
  match e with
  | ZeroExpr => of_Z 0
  | OneExpr => of_Z 1
  | Constant v => v
  | Var => x
  | Sum lhs rhs => add (call lhs x) (call rhs x)
  | Difference lhs rhs => sub (call lhs x) (call rhs x)
  | Product lhs rhs => mul (call lhs x) (call rhs x)
  | Quotient lhs rhs => div (call lhs x) (call rhs x)
  end.

(** [dx()] *)
Fixpoint dx (e : Expression) : Expression :=
  match e with
  | ZeroExpr => ZeroExpr
  | OneExpr => ZeroExpr
  | Constant _ => ZeroExpr
  | Var => OneExpr
  | Sum lhs rhs => operator_plus (dx lhs) (dx rhs)
  | Difference lhs rhs => operator_minus (dx lhs) (dx rhs)
  | Product lhs rhs =>
      operator_plus (operator_times (dx lhs) rhs)
                    (operator_times lhs (dx rhs))
  | Quotient lhs rhs =>
      operator_div
        (operator_minus (operator_times (dx lhs) rhs)
                        (operator_times lhs (dx rhs)))
        (operator_times rhs rhs)
  end.

(** The four binary operators, to speak of "every operator". *)
Inductive Operator : Type := Plus | Minus | Times | Div.

Definition builder (op : Operator) : Expression -> Expression -> Expression :=
  match op with
  | Plus => operator_plus
  | Minus => operator_minus
  | Times => operator_times
  | Div => operator_div
  end.

Definition overload_Ef (op : Operator) : Expression -> float -> Expression :=
  match op with
  | Plus => operator_plus_Ef
  | Minus => operator_minus_Ef
  | Times => operator_times_Ef
  | Div => operator_div_Ef
  end.

Definition overload_fE (op : Operator) : float -> Expression -> Expression :=
  match op with
  | Plus => operator_plus_fE
  | Minus => operator_minus_fE
  | Times => operator_times_fE
  | Div => operator_div_fE
  end.

(** The float operation an operator stands for. *)
Definition float_op (op : Operator) : float -> float -> float :=
  match op with
  | Plus => add
  | Minus => sub
  | Times => mul
  | Div => div
  end.

(** The top node is a Sum, Difference, Product or Quotient whose two
    children are both Constants (tagged or not). *)
Definition both_children_Constant (e : Expression) : bool :=
  match e with
  | Sum l r | Difference l r | Product l r | Quotient l r =>
      match Constant_value l, Constant_value r with
      | Some _, Some _ => true
      | _, _ => false
      end
  | _ => false
  end.

(** No node of the tree has two Constant children. *)
Fixpoint folded (e : Expression) : bool :=
  match e with
  | Sum l r | Difference l r | Product l r | Quotient l r =>
      negb (both_children_Constant e) && folded l && folded r
  | _ => true
  end.

(** The rule of the specification for a float operand, in its words: the
float is first promoted to a Constant, then the builder rule of the
operator is applied to the two Expressions. *)
Definition spec_combine_Ef (op : Operator) (e : Expression) (c : float)
  : Expression :=
  builder op e (Constant c).

Definition spec_combine_fE (op : Operator) (c : float) (e : Expression)
  : Expression :=
  builder op (Constant c) e.

End singleVarDiff.

(** ** MultiVarDiff.h *)

Module multiVarDiff.

(** The address of a [Variable] object, the value of [this]. *)
Definition address : Type := positive.

(** [Expression<ExprType::Variable>]: its one data member.  The field is
    called [initAddress] in the source, as is the field of [EvalVariable]. *)
Record VariableExpr : Type := Build_VariableExpr
  { var_initAddress : address }.

(** [struct EvalVariable { const Expression<ExprType::Variable>* initAddress; float value; }] *)
Record EvalVariable : Type := Build_EvalVariable
  { initAddress : address;
    value : float }.

(** [Expression<exprType, Ts...>]: one constructor per specialisation
    ([Var] for [ExprType::Variable], the word [Variable] being reserved in
    Rocq). *)
Inductive Expression : Type :=
| Constant (value : float)
| Var (v : VariableExpr)
| Sum (lhs rhs : Expression)
| Difference (lhs rhs : Expression)
| Product (lhs rhs : Expression)
| Quotient (lhs rhs : Expression).

(** [Variable x;] for an object at address [this]: the default member
    initialiser is [initAddress = this]. *)
Definition Variable_new (this : address) : VariableExpr :=
  {| var_initAddress := this |}.

(** [Variable z = x;] for an object at address [this], and every copy of
    a Variable into a node: the implicit copy constructor copies the
    member, the initialiser [= this] does not run. *)
Definition Variable_copy (this : address) (x : VariableExpr) : VariableExpr :=
  {| var_initAddress := var_initAddress x |}.

(** [exprType == ExprType::Constant], and the member [value] when it
    holds. *)
Definition Constant_value (e : Expression) : option float :=
  match e with
  | Constant v => Some v
  | _ => None
  end.

(** [operator+(const Expression&, const Expression&)] *)
Definition operator_plus (lhs rhs : Expression) : Expression :=
  match Constant_value lhs, Constant_value rhs with
  | Some a, Some b => Constant (add a b)
  | _, _ => Sum lhs rhs
  end.

(** [operator-(const Expression&, const Expression&)] *)
Definition operator_minus (lhs rhs : Expression) : Expression :=
  match Constant_value lhs, Constant_value rhs with
  | Some a, Some b => Constant (sub a b)
  | _, _ => Difference lhs rhs
  end.

(** [operator*(const Expression&, const Expression&)] *)
Definition operator_times (lhs rhs : Expression) : Expression :=
  match Constant_value lhs, Constant_value rhs with
  | Some a, Some b => Constant (mul a b)
  | _, _ => Product lhs rhs
  end.

(** [operator/(const Expression&, const Expression&)] *)
Definition operator_div (lhs rhs : Expression) : Expression :=
  match Constant_value lhs, Constant_value rhs with
  | Some a, Some b => Constant (div a b)
  | _, _ => Quotient lhs rhs
  end.

(** The global operators with floats ([_Ef]: float on the right, [_fE]:
    on the left).  Each one aggregate-initialises the node, the [float]
    being converted to a [Constant] by its constructor. *)
Definition operator_plus_Ef (lhs : Expression) (rhs : float) : Expression :=
  Sum lhs (Constant rhs).
Definition operator_plus_fE (lhs : float) (rhs : Expression) : Expression :=
  Sum (Constant lhs) rhs.
Definition operator_minus_Ef (lhs : Expression) (rhs : float) : Expression :=
  Difference lhs (Constant rhs).
Definition operator_minus_fE (lhs : float) (rhs : Expression) : Expression :=
  Difference (Constant lhs) rhs.
Definition operator_times_Ef (lhs : Expression) (rhs : float) : Expression :=
  Product lhs (Constant rhs).
Definition operator_times_fE (lhs : float) (rhs : Expression) : Expression :=
  Product (Constant lhs) rhs.
Definition operator_div_Ef (lhs : Expression) (rhs : float) : Expression :=
  Quotient lhs (Constant rhs).
Definition operator_div_fE (lhs : float) (rhs : Expression) : Expression :=
  Quotient (Constant lhs) rhs.

(** [Expression<ExprType::Variable>::operator()] on the pack
    [x, args...]: the overload for one binding when [args] is empty, the
    variadic one, which recurses on [args...], otherwise. *)
Fixpoint Variable_call (this : VariableExpr)
    (x : EvalVariable) (args : list EvalVariable) {struct args} : float :=
  match args with
  | [] =>
      if Pos.eqb (initAddress x) (var_initAddress this) then value x
      else of_Z 0
  | y :: args' =>
      if Pos.eqb (initAddress x) (var_initAddress this) then value x
      else Variable_call this y args'
  end.

(** [operator()] of every node on the pack [x, args...]. *)
Fixpoint call (e : Expression) (x : EvalVariable) (args : list EvalVariable)
    : float :=
  match e with
  | Constant v => v
  | Var v => Variable_call v x args
  | Sum lhs rhs => add (call lhs x args) (call rhs x args)
  | Difference lhs rhs => sub (call lhs x args) (call rhs x args)
  | Product lhs rhs => mul (call lhs x args) (call rhs x args)
  | Quotient lhs rhs => div (call lhs x args) (call rhs x args)
  end.

(** [dx(const Expression<ExprType::Variable>& var)].  In the Constant,
    [Expression<ExprType::Constant>{}] value-initialises [value] to 0. *)
Fixpoint dx (e : Expression) (var : VariableExpr) : Expression :=
  match e with
  | Constant _ => Constant zero
  | Var v =>
      Constant (if Pos.eqb (var_initAddress var) (var_initAddress v)
                then of_Z 1 else of_Z 0)
  | Sum lhs rhs => operator_plus (dx lhs var) (dx rhs var)
  | Difference lhs rhs => operator_minus (dx lhs var) (dx rhs var)
  | Product lhs rhs =>
      operator_plus (operator_times (dx lhs var) rhs)
                    (operator_times lhs (dx rhs var))
  | Quotient lhs rhs =>
      operator_div
        (operator_minus (operator_times (dx lhs var) rhs)
                        (operator_times lhs (dx rhs var)))
        (operator_times rhs rhs)
  end.

(** [EvalVariable operator=(float value) const] of the Variable.  The
    method is [const]: the receiver after the call is the receiver before
    it.  The result pairs that receiver with the returned binding. *)
Definition operator_assign (this : VariableExpr) (v : float)
    : VariableExpr * EvalVariable :=
  (this, {| initAddress := var_initAddress this; value := v |}).

(** The binding itself, as written at a call site: [x = 10]. *)
Definition bind (this : VariableExpr) (v : float) : EvalVariable :=
  snd (operator_assign this v).

(** The four binary operators, to speak of "every operator". *)
Inductive Operator : Type := Plus | Minus | Times | Div.

Definition builder (op : Operator) : Expression -> Expression -> Expression :=
  match op with
  | Plus => operator_plus
  | Minus => operator_minus
  | Times => operator_times
  | Div => operator_div
  end.

Definition overload_Ef (op : Operator) : Expression -> float -> Expression :=
  match op with
  | Plus => operator_plus_Ef
  | Minus => operator_minus_Ef
  | Times => operator_times_Ef
  | Div => operator_div_Ef
  end.

Definition overload_fE (op : Operator) : float -> Expression -> Expression :=
  match op with
  | Plus => operator_plus_fE
  | Minus => operator_minus_fE
  | Times => operator_times_fE
  | Div => operator_div_fE
  end.

(** The float operation an operator stands for. *)
Definition float_op (op : Operator) : float -> float -> float :=
  match op with
  | Plus => add
  | Minus => sub
  | Times => mul
  | Div => div
  end.

(** The top node is a Sum, Difference, Product or Quotient whose two
    children are both Constants. *)
Definition both_children_Constant (e : Expression) : bool :=
  match e with
  | Sum l r | Difference l r | Product l r | Quotient l r =>
      match Constant_value l, Constant_value r with
      | Some _, Some _ => true
      | _, _ => false
      end
  | _ => false
  end.

(** No node of the tree has two Constant children. *)
Fixpoint folded (e : Expression) : bool :=
  match e with
  | Sum l r | Difference l r | Product l r | Quotient l r =>
      negb (both_children_Constant e) && folded l && folded r
  | _ => true
  end.

(** The first binding of a list whose [initAddress] is the Variable's. *)
Definition first_match (this : VariableExpr) (l : list EvalVariable)
    : option EvalVariable :=
  find (fun b => Pos.eqb (initAddress b) (var_initAddress this)) l.

(** The rule of the specification for a float operand, in its words: the
float is first promoted to a Constant, then the builder rule of the
operator is applied to the two Expressions. *)
Definition spec_combine_Ef (op : Operator) (e : Expression) (c : float)
  : Expression :=
  builder op e (Constant c).

Definition spec_combine_fE (op : Operator) (c : float) (e : Expression)
  : Expression :=
  builder op (Constant c) e.

End multiVarDiff.

(** ** main.cpp *)

Module main.
Import multiVarDiff.

Section Main.
(** The addresses of the three local objects [x], [y] and [z]. *)
Variables addr_x addr_y addr_z : address.

Definition x : VariableExpr := Variable_new addr_x.
Definition y : VariableExpr := Variable_new addr_y.
Definition z : VariableExpr := Variable_copy addr_z x.

(** [x * z + 4 * y * y / (x + 5)] *)
Definition expression : Expression :=
  operator_plus
    (operator_times (Var x) (Var z))
    (operator_div
       (operator_times (operator_times_fE (of_Z 4) (Var y)) (Var y))
       (operator_plus_Ef (Var x) (of_Z 5))).

Definition dExpr_dx : Expression := dx expression x.
Definition dExpr_dy : Expression := dx expression y.

(** [dExpr_dx(x = 10, y = 200)] and [dExpr_dy(x = 10, y = 200)] *)
Definition dExpr_dx_at_10_200 : float :=
  call dExpr_dx (bind x (of_Z 10)) [bind y (of_Z 200)].
Definition dExpr_dy_at_10_200 : float :=
  call dExpr_dy (bind x (of_Z 10)) [bind y (of_Z 200)].
End Main.

(** What the specification gives for [dExpr_dx(x = 10, y = 200)]:
[20 - 320000/225], in binary32. *)
Definition claimed_dExpr_dx : float :=
  sub (of_Z 20) (div (of_Z 320000) (of_Z 225)).

(** The same with the numerator [4 * 200 * 200 = 160000]. *)
Definition amended_dExpr_dx : float :=
  sub (of_Z 20) (div (of_Z 160000) (of_Z 225)).

(** [8 * 200 / (10 + 5)], in binary32. *)
Definition claimed_dExpr_dy : float :=
  div (mul (of_Z 8) (of_Z 200)) (add (of_Z 10) (of_Z 5)).

End main.

Module S := singleVarDiff.
Module M := multiVarDiff.

(** ** Predicates on trees and bindings *)

Module SingleShape.
Import singleVarDiff.

(** A Variable leaf occurs in the tree. *)
Fixpoint has_Var (e : Expression) : bool :=
  match e with
  | Var => true
  | Sum l r | Difference l r | Product l r | Quotient l r =>
      has_Var l || has_Var r
  | _ => false
  end.

(** [exprType1 == ExprType::Constant && exprType2 == ExprType::Constant] *)
Definition both_Constant (l r : Expression) : bool :=
  match Constant_value l, Constant_value r with
  | Some _, Some _ => true
  | _, _ => false
  end.

(** No node of the tree is one that an operator of the engine would have
simplified: no two Constant children, no literal zero under a Sum or a
Product or on the right of a Difference or on either side of a Quotient,
no literal one under a Product or on the right of a Quotient. *)
Fixpoint simplified (e : Expression) : bool :=
  match e with
  | Sum l r =>
      negb (is_ZeroExpr l) && negb (is_ZeroExpr r)
      && negb (both_Constant l r) && simplified l && simplified r
  | Difference l r =>
      negb (is_ZeroExpr r)
      && negb (both_Constant l r) && simplified l && simplified r
  | Product l r =>
      negb (is_ZeroExpr l) && negb (is_ZeroExpr r)
      && negb (is_OneExpr l) && negb (is_OneExpr r)
      && negb (both_Constant l r) && simplified l && simplified r
  | Quotient l r =>
      negb (is_ZeroExpr r) && negb (is_ZeroExpr l) && negb (is_OneExpr r)
      && negb (both_Constant l r) && simplified l && simplified r
  | _ => true
  end.

(** The composite node of an operator. *)
Definition node (op : Operator) : Expression -> Expression -> Expression :=
  match op with
  | Plus => Sum
  | Minus => Difference
  | Times => Product
  | Div => Quotient
  end.

End SingleShape.

Module MultiShape.
Import multiVarDiff.

(** A Variable leaf with the [initAddress] [a] occurs in the tree. *)
Fixpoint occurs (a : address) (e : Expression) : bool :=
  match e with
  | Constant _ => false
  | Var v => Pos.eqb (var_initAddress v) a
  | Sum l r | Difference l r | Product l r | Quotient l r =>
      occurs a l || occurs a r
  end.

(** The composite node of an operator. *)
Definition node (op : Operator) : Expression -> Expression -> Expression :=
  match op with
  | Plus => Sum
  | Minus => Difference
  | Times => Product
  | Div => Quotient
  end.

(** A Variable leaf occurs in the tree. *)
Fixpoint has_Var (e : Expression) : bool :=
  match e with
  | Constant _ => false
  | Var _ => true
  | Sum l r | Difference l r | Product l r | Quotient l r =>
      has_Var l || has_Var r
  end.

(** At the bindings [x, args...] the operands of every Product and of
every Quotient of the tree evaluate to finite floats, and the square of
the divisor of every Quotient is neither a zero nor a NaN. *)
Fixpoint regular (e : Expression) (x : EvalVariable)
    (args : list EvalVariable) : bool :=
  match e with
  | Constant _ | Var _ => true
  | Sum l r | Difference l r => regular l x args && regular r x args
  | Product l r =>
      is_finite (call l x args) && is_finite (call r x args)
      && regular l x args && regular r x args
  | Quotient l r =>
      is_finite (call l x args) && is_finite (call r x args)
      && negb (is_zero (mul (call r x args) (call r x args)))
      && negb (is_nan (mul (call r x args) (call r x args)))
      && regular l x args && regular r x args
  end.

End MultiShape.

(** ** Facts on binary32 *)

Module Float32Facts.

Lemma of_Z_0 : of_Z 0 = zero.
Proof. reflexivity. Qed.

Lemma of_Z_1 : of_Z 1 = one.
Proof. reflexivity. Qed.

(** Subtracting is adding the negation, on every pair of floats. *)
Lemma sub_add_neg (x y : float) : sub x y = add x (neg y).
Proof.
  unfold sub, add, neg.
  destruct x as [sx | sx | | sx mx ex], y as [sy | sy | | sy my ey];
    try reflexivity;
    destruct sx, sy; reflexivity.
Qed.

Lemma same_refl (x : float) : same_up_to_zero_sign x x.
Proof. now left. Qed.

Lemma same_sym (x y : float) :
  same_up_to_zero_sign x y -> same_up_to_zero_sign y x.
Proof. intros [-> | [Hx Hy]]; [now left | now right]. Qed.

Lemma same_trans (x y z : float) :
  same_up_to_zero_sign x y -> same_up_to_zero_sign y z ->
  same_up_to_zero_sign x z.
Proof.
  intros [-> | [Hx Hy]] [<- | [Hy' Hz]]; [now left | now right | now right |].
  right; split; assumption.
Qed.

Lemma same_zeros (x y : float) :
  is_zero x = true -> is_zero y = true -> same_up_to_zero_sign x y.
Proof. intros Hx Hy; right; split; assumption. Qed.

Lemma is_zero_inv (x : float) : is_zero x = true -> exists s, x = S754_zero s.
Proof. destruct x; try discriminate; eauto. Qed.

(** Adding a zero changes at most the sign of a zero. *)
Lemma add_zero_l (z x : float) :
  is_zero z = true -> same_up_to_zero_sign (add z x) x.
Proof.
  intros Hz; apply is_zero_inv in Hz as [s ->].
  destruct x as [sx | sx | | sx mx ex]; try (now left).
  right; destruct s, sx; split; reflexivity.
Qed.

Lemma add_zero_r (z x : float) :
  is_zero z = true -> same_up_to_zero_sign (add x z) x.
Proof.
  intros Hz; apply is_zero_inv in Hz as [s ->].
  destruct x as [sx | sx | | sx mx ex]; try (now left).
  right; destruct s, sx; split; reflexivity.
Qed.

Lemma add_zeros (x y : float) :
  is_zero x = true -> is_zero y = true -> is_zero (add x y) = true.
Proof.
  intros Hx Hy.
  apply is_zero_inv in Hx as [a ->]; apply is_zero_inv in Hy as [b ->].
  destruct a, b; reflexivity.
Qed.

(** Addition respects equality up to the sign of a zero. *)
Lemma add_same (x x' y y' : float) :
  same_up_to_zero_sign x x' -> same_up_to_zero_sign y y' ->
  same_up_to_zero_sign (add x y) (add x' y').
Proof.
  intros [-> | [Hx Hx']] [-> | [Hy Hy']]; try (now left).
  - apply same_trans with x';
      [now apply add_zero_r | apply same_sym; now apply add_zero_r].
  - apply same_trans with y';
      [now apply add_zero_l | apply same_sym; now apply add_zero_l].
  - apply same_zeros; now apply add_zeros.
Qed.

(** A zero times a finite float is a zero. *)
Lemma mul_zero_l (z x : float) :
  is_zero z = true -> is_finite x = true -> is_zero (mul z x) = true.
Proof.
  intros Hz Hx; apply is_zero_inv in Hz as [s ->].
  destruct x; try discriminate; reflexivity.
Qed.

Lemma mul_zero_r (z x : float) :
  is_zero z = true -> is_finite x = true -> is_zero (mul x z) = true.
Proof.
  intros Hz Hx; apply is_zero_inv in Hz as [s ->].
  destruct x; try discriminate; reflexivity.
Qed.

(** Dividing by a zero gives an infinity or a NaN, whatever is divided. *)
Lemma div_by_zero (x : float) (s : bool) :
  is_inf (div x (S754_zero s)) = true \/ is_nan (div x (S754_zero s)) = true.
Proof. destruct x; cbn; auto. Qed.

(** One times a finite float is that float: the product of the two
significands is the significand shifted by 23 bits, which the rounding
shifts back without losing a bit. *)
Lemma mul_one_l (x : float) : is_finite x = true -> mul one x = x.
Proof.
  destruct x as [s | s | | s m e]; try discriminate; try reflexivity.
  cbn [is_finite]. unfold bounded, canonical_mantissa.
  intros H. apply andb_prop in H as [Hc He].
  apply Z.eqb_eq in Hc.
  unfold mul, one. cbn [SFmul xorb].
  change (Pos.mul 8388608 m)
    with (m~0~0~0~0~0~0~0~0~0~0~0~0~0~0~0~0~0~0~0~0~0~0~0)%positive.
  unfold binary_round_aux.
  unfold shr_fexp at 1.
  cbn [Zdigits2 digits2_pos].
  match goal with
  | |- context [shr ?r ?ex ?n] =>
      assert (Hn : n = 23);
      [ match goal with
        | |- fexp _ _ ?a - _ = _ =>
            replace a with (Z.pos (digits2_pos m) + e) by lia
        end; rewrite Hc; lia
      | rewrite Hn ]
  end.
  cbn [shr shr_record_of_loc iter_pos shr_1 shr_m shr_r shr_s orb
       loc_of_shr_record round_nearest_even].
  replace (-23 + e + 23) with e by lia.
  unfold shr_fexp. cbn [Zdigits2]. rewrite Hc, Z.sub_diag.
  cbn [shr shr_record_of_loc shr_m].
  rewrite He. reflexivity.
Qed.

Lemma mul_one_r (x : float) : is_finite x = true -> mul x one = x.
Proof.
  destruct x as [s | s | | s m e]; try discriminate;
    try (destruct s; reflexivity).
  intros H. rewrite <- (mul_one_l (S754_finite s m e) H) at 2.
  unfold mul, one. cbn [SFmul].
  rewrite xorb_false_r, Pos.mul_comm, Z.add_comm. reflexivity.
Qed.

End Float32Facts.

(** ** Facts on the single-variable engine *)

Module SingleFacts.
Import singleVarDiff Float32Facts.

Lemma single_is_ZeroExpr_inv (e : Expression) :
  is_ZeroExpr e = true -> e = ZeroExpr.
Proof. destruct e; try discriminate; reflexivity. Qed.

Lemma single_is_OneExpr_inv (e : Expression) :
  is_OneExpr e = true -> e = OneExpr.
Proof. destruct e; try discriminate; reflexivity. Qed.

(** A Constant evaluates to its [value] member at every argument. *)
Lemma single_call_Constant_value (e : Expression) (v x : float) :
  Constant_value e = Some v -> call e x = v.
Proof. destruct e; try discriminate; cbn; now intros [= <-]. Qed.

(** The sum the builder returns evaluates to the float sum of its operands,
up to the sign of a zero (lost when a literal zero is eliminated). *)
Lemma single_call_operator_plus (l r : Expression) (x : float) :
  same_up_to_zero_sign (call (operator_plus l r) x) (add (call l x) (call r x)).
Proof.
  unfold operator_plus.
  destruct (is_ZeroExpr l) eqn:Hl.
  { apply single_is_ZeroExpr_inv in Hl as ->.
    apply same_sym, add_zero_l. reflexivity. }
  destruct (is_ZeroExpr r) eqn:Hr.
  { apply single_is_ZeroExpr_inv in Hr as ->.
    apply same_sym, add_zero_r. reflexivity. }
  destruct (Constant_value l) as [a |] eqn:Ha;
    [destruct (Constant_value r) as [b |] eqn:Hb |]; try apply same_refl.
  cbn [call].
  rewrite (single_call_Constant_value l a x Ha),
          (single_call_Constant_value r b x Hb).
  apply same_refl.
Qed.

(** The product the builder returns evaluates to the float product of its
operands, up to the sign of a zero, when both operands are finite. *)
Lemma single_call_operator_times (l r : Expression) (x : float) :
  is_finite (call l x) = true -> is_finite (call r x) = true ->
  same_up_to_zero_sign (call (operator_times l r) x)
                       (mul (call l x) (call r x)).
Proof.
  intros Fl Fr. unfold operator_times.
  destruct (is_ZeroExpr l) eqn:Hl.
  { apply single_is_ZeroExpr_inv in Hl as ->. cbn [orb].
    apply same_zeros; [reflexivity | now apply mul_zero_l]. }
  destruct (is_ZeroExpr r) eqn:Hr.
  { apply single_is_ZeroExpr_inv in Hr as ->. cbn [orb].
    apply same_zeros; [reflexivity | now apply mul_zero_r]. }
  cbn [orb].
  destruct (is_OneExpr l) eqn:Hl1.
  { apply single_is_OneExpr_inv in Hl1 as ->. cbn [call].
    rewrite of_Z_1, mul_one_l by assumption. apply same_refl. }
  destruct (is_OneExpr r) eqn:Hr1.
  { apply single_is_OneExpr_inv in Hr1 as ->. cbn [call].
    rewrite of_Z_1, mul_one_r by assumption. apply same_refl. }
  destruct (Constant_value l) as [a |] eqn:Ha;
    [destruct (Constant_value r) as [b |] eqn:Hb |]; try apply same_refl.
  cbn [call].
  rewrite (single_call_Constant_value l a x Ha),
          (single_call_Constant_value r b x Hb).
  apply same_refl.
Qed.

(** Whatever the operator, the builder applied to two Constants (tagged or
not) returns a Constant leaf. *)
Lemma single_builder_Constants (op : Operator) (l r : Expression) (a b : float) :
  Constant_value l = Some a -> Constant_value r = Some b ->
  exists v, Constant_value (builder op l r) = Some v.
Proof.
  intros Ha Hb.
  destruct l; try discriminate; destruct r; try discriminate;
    destruct op; cbn; eauto.
Qed.

(** The builder keeps the trees folded: from folded operands it never
makes a node with two Constant children. *)
Lemma single_builder_folded (op : Operator) (l r : Expression) :
  folded l = true -> folded r = true -> folded (builder op l r) = true.
Proof.
  intros Hl Hr.
  destruct op; cbn [builder];
    unfold operator_plus, operator_minus, operator_times, operator_div;
    repeat match goal with
      | |- context [if ?c then _ else _] => destruct c eqn:?
      end; try assumption; try reflexivity;
    destruct (Constant_value l) eqn:Ha;
    destruct (Constant_value r) eqn:Hb; try reflexivity;
    cbn [folded both_children_Constant]; rewrite Ha, ?Hb, Hl, Hr; reflexivity.
Qed.

(** The float overloads go through the builder, so they keep the trees
folded as well. *)
Lemma single_overloads_folded (op : Operator) (e : Expression) (c : float) :
  folded e = true ->
  folded (overload_Ef op e c) = true /\ folded (overload_fE op c e) = true.
Proof.
  intros He. split.
  - destruct op; cbn [overload_Ef];
      [ apply (single_builder_folded Plus)
      | apply (single_builder_folded Plus)
      | apply (single_builder_folded Times)
      | apply (single_builder_folded Div) ]; auto.
  - destruct op; cbn [overload_fE];
      [ apply (single_builder_folded Plus)
      | apply (single_builder_folded Minus)
      | apply (single_builder_folded Times)
      | apply (single_builder_folded Div) ]; auto.
Qed.

End SingleFacts.

(** ** Facts on the multi-variable engine *)

Module MultiFacts.
Import multiVarDiff Float32Facts.

Lemma multi_call_Constant_value (e : Expression) (v : float)
    (x : EvalVariable) (args : list EvalVariable) :
  Constant_value e = Some v -> call e x args = v.
Proof. destruct e; try discriminate; cbn; now intros [= <-]. Qed.

(** What the builder returns evaluates to the float operation on the
values of its operands, exactly. *)
Lemma multi_call_builder (op : Operator) (l r : Expression)
    (x : EvalVariable) (args : list EvalVariable) :
  call (builder op l r) x args = float_op op (call l x args) (call r x args).
Proof.
  destruct op; cbn [builder float_op];
    unfold operator_plus, operator_minus, operator_times, operator_div;
    (destruct (Constant_value l) as [a |] eqn:Ha;
     [destruct (Constant_value r) as [b |] eqn:Hb |]; try reflexivity);
    cbn [call];
    rewrite (multi_call_Constant_value l a x args Ha),
            (multi_call_Constant_value r b x args Hb);
    reflexivity.
Qed.

Lemma multi_call_operator_plus (l r : Expression)
    (x : EvalVariable) (args : list EvalVariable) :
  call (operator_plus l r) x args = add (call l x args) (call r x args).
Proof. exact (multi_call_builder Plus l r x args). Qed.

Lemma multi_call_operator_times (l r : Expression)
    (x : EvalVariable) (args : list EvalVariable) :
  call (operator_times l r) x args = mul (call l x args) (call r x args).
Proof. exact (multi_call_builder Times l r x args). Qed.

(** The operators on two Expressions keep the trees folded. *)
Lemma multi_builder_folded (op : Operator) (l r : Expression) :
  folded l = true -> folded r = true -> folded (builder op l r) = true.
Proof.
  intros Hl Hr.
  destruct op; cbn [builder];
    unfold operator_plus, operator_minus, operator_times, operator_div;
    destruct (Constant_value l) eqn:Ha;
    destruct (Constant_value r) eqn:Hb; try reflexivity;
    cbn [folded both_children_Constant]; rewrite Ha, ?Hb, Hl, Hr; reflexivity.
Qed.

(** The derivative of a tree evaluates by the rule of its top node. *)
Lemma multi_call_dx_Product (f g : Expression) (v : VariableExpr)
    (x : EvalVariable) (args : list EvalVariable) :
  call (dx (Product f g) v) x args =
  add (mul (call (dx f v) x args) (call g x args))
      (mul (call f x args) (call (dx g v) x args)).
Proof.
  cbn [dx].
  now rewrite multi_call_operator_plus, !multi_call_operator_times.
Qed.

End MultiFacts.

(** ** The builder of the single-variable engine *)

Module SingleClaims.
Import singleVarDiff Float32Facts SingleFacts.

(** C1: in the single-variable engine, the quotient of any expression [x]
by the literal-Constant zero is the literal-Constant zero: the builder
returns [ZeroExpr] itself, which is no Quotient node, and which evaluates
to the float [+0], no infinity and no NaN, at every argument. *)
Theorem quotient_by_literal_zero (x : Expression) :
  operator_div x ZeroExpr = ZeroExpr
  /\ (forall l r, operator_div x ZeroExpr <> Quotient l r)
  /\ (forall a, call (operator_div x ZeroExpr) a = zero)
  /\ (forall a, is_inf (call (operator_div x ZeroExpr) a) = false
                /\ is_nan (call (operator_div x ZeroExpr) a) = false).
Proof.
  assert (H : operator_div x ZeroExpr = ZeroExpr) by reflexivity.
  rewrite H. repeat split; intros; discriminate.
Qed.

(** C5: the identity eliminations of the single-variable engine hold by
structural identity, for every expression [x]: [x + 0], [0 + x], [x - 0],
[x * 1], [1 * x] and [x / 1] are [x] itself, and [x * 0], [0 * x] and
[0 / x] are the literal zero. *)
Theorem identity_eliminations (x : Expression) :
  operator_plus x ZeroExpr = x
  /\ operator_plus ZeroExpr x = x
  /\ operator_minus x ZeroExpr = x
  /\ operator_times x OneExpr = x
  /\ operator_times OneExpr x = x
  /\ operator_times x ZeroExpr = ZeroExpr
  /\ operator_times ZeroExpr x = ZeroExpr
  /\ operator_div x OneExpr = x
  /\ operator_div ZeroExpr x = ZeroExpr.
Proof.
  repeat apply conj.
  - unfold operator_plus. destruct (is_ZeroExpr x) eqn:Hx; [| reflexivity].
    now apply single_is_ZeroExpr_inv in Hx as ->.
  - reflexivity.
  - reflexivity.
  - unfold operator_times. destruct (is_ZeroExpr x) eqn:Hx.
    + now apply single_is_ZeroExpr_inv in Hx as ->.
    + cbn. destruct (is_OneExpr x) eqn:Hx1; [| reflexivity].
      now apply single_is_OneExpr_inv in Hx1 as ->.
  - unfold operator_times. cbn. destruct (is_ZeroExpr x) eqn:Hx; [| reflexivity].
    now apply single_is_ZeroExpr_inv in Hx as ->.
  - unfold operator_times. now rewrite orb_true_r.
  - reflexivity.
  - unfold operator_div. cbn. destruct (is_ZeroExpr x) eqn:Hx; [| reflexivity].
    now apply single_is_ZeroExpr_inv in Hx as ->.
  - unfold operator_div. now destruct (is_ZeroExpr x).
Qed.

End SingleClaims.

(** ** Variables, bindings and the demonstration of the multi-variable engine *)

Module MultiClaims.
Import multiVarDiff Float32Facts MultiFacts.

(** A Variable leaf evaluates to the value of the first binding that
matches it, and to 0 when none does. *)
Lemma multi_Variable_call_first_match (this : VariableExpr)
    (x : EvalVariable) (args : list EvalVariable) :
  Variable_call this x args =
  match first_match this (x :: args) with
  | Some b => value b
  | None => zero
  end.
Proof.
  revert x. induction args as [| y args IH]; intros x; cbn [Variable_call].
  - unfold first_match; cbn [find].
    destruct (Pos.eqb (initAddress x) (var_initAddress this)); reflexivity.
  - rewrite IH. unfold first_match; cbn [find].
    destruct (Pos.eqb (initAddress x) (var_initAddress this)); reflexivity.
Qed.

(** The first match of a list that splits into entries that do not match,
a matching entry, and a rest, is that entry. *)
Lemma multi_first_match_split (this : VariableExpr)
    (pre post : list EvalVariable) (b : EvalVariable) :
  Forall (fun p => initAddress p <> var_initAddress this) pre ->
  initAddress b = var_initAddress this ->
  first_match this (pre ++ b :: post) = Some b.
Proof.
  intros Hpre Hb. unfold first_match.
  induction Hpre as [| p pre Hp _ IH]; cbn [app find].
  - now rewrite (proj2 (Pos.eqb_eq _ _) Hb).
  - now rewrite (proj2 (Pos.eqb_neq _ _) Hp).
Qed.

Lemma multi_first_match_none (this : VariableExpr) (l : list EvalVariable) :
  Forall (fun p => initAddress p <> var_initAddress this) l ->
  first_match this l = None.
Proof.
  intros Hl. unfold first_match.
  induction Hl as [| p l Hp _ IH]; cbn [find]; [reflexivity |].
  now rewrite (proj2 (Pos.eqb_neq _ _) Hp).
Qed.

(** C7: in the multi-variable engine, a Variable leaf evaluated on the
ordered bindings [x, args...] returns the value of the first binding whose
[initAddress] is the leaf's, and the float 0 when no binding matches; the
evaluation is a total function, there is no error result. *)
Theorem variable_leaf_lookup (this : VariableExpr)
    (x : EvalVariable) (args : list EvalVariable) :
  call (Var this) x args =
    match first_match this (x :: args) with
    | Some b => value b
    | None => zero
    end
  /\ (forall pre b post,
        x :: args = pre ++ b :: post ->
        Forall (fun p => initAddress p <> var_initAddress this) pre ->
        initAddress b = var_initAddress this ->
        call (Var this) x args = value b)
  /\ (Forall (fun p => initAddress p <> var_initAddress this) (x :: args) ->
      call (Var this) x args = zero).
Proof.
  cbn [call]. rewrite multi_Variable_call_first_match.
  repeat apply conj.
  - reflexivity.
  - intros pre b post -> Hpre Hb.
    now rewrite multi_first_match_split.
  - intros Hnone. now rewrite multi_first_match_none.
Qed.

(** C7 at [x = 10, y = 200, x = 7]: the leaf [x] takes the first binding
of [x], the leaf [y] the second entry, an unbound leaf evaluates to 0. *)
Lemma variable_leaf_lookup_witness :
  let x := Variable_new 1%positive in
  let y := Variable_new 2%positive in
  let w := Variable_new 3%positive in
  let bx := bind x (of_Z 10) in
  let rest := [bind y (of_Z 200); bind x (of_Z 7)] in
  call (Var x) bx rest = of_Z 10
  /\ call (Var y) bx rest = of_Z 200
  /\ call (Var w) bx rest = zero.
Proof.
  intros x y w bx rest. repeat apply conj.
  - apply (proj1 (proj2 (variable_leaf_lookup x bx rest)) [] bx rest);
      [reflexivity | constructor | reflexivity].
  - apply (proj1 (proj2 (variable_leaf_lookup y bx rest))
             [bx] (bind y (of_Z 200)) [bind x (of_Z 7)]);
      [reflexivity | repeat constructor; discriminate | reflexivity].
  - apply (proj2 (proj2 (variable_leaf_lookup w bx rest)));
      repeat constructor; discriminate.
Defined.

(** C8: in the multi-variable engine, the derivative of a Variable with
respect to a Variable with the same [initAddress] is the Constant 1, with
respect to a Variable with another [initAddress] the Constant 0.  A copy
has the [initAddress] of its original wherever the copy itself is stored,
so it counts as the same variable; two Variables created at two addresses
are distinct although both are bare Variable nodes. *)
Theorem variable_derivative_by_identity (v w : VariableExpr) :
  (var_initAddress w = var_initAddress v -> dx (Var v) w = Constant one)
  /\ (var_initAddress w <> var_initAddress v -> dx (Var v) w = Constant zero)
  /\ (forall this,
        dx (Var v) (Variable_copy this v) = Constant one
        /\ dx (Var (Variable_copy this v)) v = Constant one)
  /\ (forall a b,
        a <> b -> dx (Var (Variable_new a)) (Variable_new b) = Constant zero).
Proof.
  repeat apply conj.
  - intros H. cbn [dx]. now rewrite (proj2 (Pos.eqb_eq _ _) H).
  - intros H. cbn [dx]. now rewrite (proj2 (Pos.eqb_neq _ _) H).
  - intros this. cbn [dx Variable_copy var_initAddress].
    now rewrite Pos.eqb_refl.
  - intros a b H. cbn [dx Variable_new var_initAddress].
    assert (Hba : b <> a) by congruence.
    now rewrite (proj2 (Pos.eqb_neq _ _) Hba).
Qed.

(** C8 on the three Variables of [main.cpp]: [z] is a copy of [x] stored
elsewhere, [y] is another Variable. *)
Lemma variable_derivative_by_identity_witness :
  let x := Variable_new 1%positive in
  let y := Variable_new 2%positive in
  let z := Variable_copy 3%positive x in
  dx (Var x) z = Constant one /\ dx (Var x) y = Constant zero.
Proof.
  intros x y z. split.
  - apply (proj1 (variable_derivative_by_identity x z)). reflexivity.
  - apply (proj1 (proj2 (variable_derivative_by_identity x y))). discriminate.
Defined.

(** C10: in the multi-variable engine [v = c] does not change [v]: the
receiver after the call is [v], the binding returned pairs the
[initAddress] of [v] with [c], and so [v] can be bound again to another
value: the Variable leaf built from [v] before still takes the value of
the new binding, and still has derivative 1 with respect to [v]. *)
Theorem assignment_is_not_mutation (v : VariableExpr) (c : float) :
  fst (operator_assign v c) = v
  /\ snd (operator_assign v c)
     = {| initAddress := var_initAddress v; value := c |}
  /\ (forall c' rest,
        call (Var v) (snd (operator_assign (fst (operator_assign v c)) c')) rest
        = c')
  /\ (forall e, dx e (fst (operator_assign v c)) = dx e v)
  /\ dx (Var v) (fst (operator_assign v c)) = Constant one.
Proof.
  cbn [operator_assign fst snd]. repeat apply conj; try reflexivity.
  - intros c' rest. cbn [call].
    destruct rest; cbn [Variable_call initAddress value];
      now rewrite Pos.eqb_refl.
  - cbn [dx]. now rewrite Pos.eqb_refl.
Qed.

End MultiClaims.

(** ** main.cpp: the two derivatives at [x = 10, y = 200] *)

Module MainClaims.
Import multiVarDiff main Float32Facts MultiFacts.

(** The two values do not depend on the addresses, as long as [y] is not
[x]. *)
Lemma main_values (addr_x addr_y addr_z : address) :
  addr_x <> addr_y ->
  dExpr_dx_at_10_200 addr_x addr_y addr_z
  = dExpr_dx_at_10_200 1%positive 2%positive 3%positive
  /\ dExpr_dy_at_10_200 addr_x addr_y addr_z
     = dExpr_dy_at_10_200 1%positive 2%positive 3%positive.
Proof.
  intros Hxy.
  assert (Hyx : addr_y <> addr_x) by congruence.
  apply Pos.eqb_neq in Hxy, Hyx.
  unfold dExpr_dx_at_10_200, dExpr_dy_at_10_200, dExpr_dx, dExpr_dy,
    expression, x, y, z, bind, operator_assign, Variable_new, Variable_copy.
  cbn -[add sub mul div of_Z Pos.eqb].
  rewrite !Pos.eqb_refl, ?Hxy, ?Hyx.
  split; reflexivity.
Qed.

(** C2, as amended: with [x] and [y] two distinct Variables, [z] a copy of
[x] and [expression = x * z + 4 * y * y / (x + 5)], the derivative by [x]
evaluated at [x = 10, y = 200] is the binary32 value of [20 - 160000/225],
about -691.11, and the derivative by [y] at the same bindings is the
binary32 value of [8 * 200 / (10 + 5)], about 106.67. *)
Theorem main_scenario (addr_x addr_y addr_z : address) :
  addr_x <> addr_y ->
  dExpr_dx_at_10_200 addr_x addr_y addr_z = amended_dExpr_dx
  /\ strictly_between (-69112 # 100) (-69111 # 100)
       (dExpr_dx_at_10_200 addr_x addr_y addr_z)
  /\ dExpr_dy_at_10_200 addr_x addr_y addr_z = claimed_dExpr_dy
  /\ strictly_between (10666 # 100) (10667 # 100)
       (dExpr_dy_at_10_200 addr_x addr_y addr_z).
Proof.
  intros Hxy. destruct (main_values addr_x addr_y addr_z Hxy) as [-> ->].
  repeat apply conj.
  - vm_compute. reflexivity.
  - eexists. split; [vm_compute; reflexivity |].
    split; vm_compute; reflexivity.
  - vm_compute. reflexivity.
  - eexists. split; [vm_compute; reflexivity |].
    split; vm_compute; reflexivity.
Qed.

(** C2 as amended, for objects at the addresses 1, 2 and 3. *)
Lemma main_scenario_witness :
  dExpr_dx_at_10_200 1%positive 2%positive 3%positive = amended_dExpr_dx
  /\ dExpr_dy_at_10_200 1%positive 2%positive 3%positive = claimed_dExpr_dy.
Proof.
  destruct (main_scenario 1%positive 2%positive 3%positive) as (Hx & _ & Hy & _); [discriminate |].
  split; assumption.
Defined.

(** C2 as stated fails: [dExpr_dx(x = 10, y = 200)] is not the binary32
value of [20 - 320000/225], and it is not between -1403 and -1402. *)
Lemma main_scenario_counterexample :
  dExpr_dx_at_10_200 1%positive 2%positive 3%positive <> claimed_dExpr_dx
  /\ ~ strictly_between (-1403 # 1) (-1402 # 1) (dExpr_dx_at_10_200 1%positive 2%positive 3%positive).
Proof.
  split.
  - vm_compute. discriminate.
  - intros (q & Hq & _ & Hlt).
    vm_compute in Hq. injection Hq as <-.
    vm_compute in Hlt. discriminate.
Qed.

End MainClaims.

(** ** Properties of both engines *)

Module BothEngines.
Import Float32Facts SingleFacts MultiFacts.

(** C9: in both engines, for all untagged Constants [a] and [b] and every
operator, the builder returns the single Constant leaf that holds the
float [a op b]; a division by a Constant whose value is a zero is folded
like any other, and the Constant then holds an infinity or a NaN. *)
Theorem constant_folding :
  (forall op a b,
      S.builder op (S.Constant a) (S.Constant b)
      = S.Constant (S.float_op op a b))
  /\ (forall op a b,
        M.builder op (M.Constant a) (M.Constant b)
        = M.Constant (M.float_op op a b))
  /\ (forall a s,
        S.operator_div (S.Constant a) (S.Constant (S754_zero s))
        = S.Constant (div a (S754_zero s))
        /\ M.operator_div (M.Constant a) (M.Constant (S754_zero s))
           = M.Constant (div a (S754_zero s))
        /\ (is_inf (div a (S754_zero s)) = true
            \/ is_nan (div a (S754_zero s)) = true)).
Proof.
  repeat apply conj.
  - intros [] a b; reflexivity.
  - intros [] a b; reflexivity.
  - intros a s. repeat apply conj; try reflexivity. apply div_by_zero.
Qed.

(** C3 at the failing input: in the multi-variable engine the float
overloads applied to a Constant return the composite node with two
Constant children, [Constant{2} + 3.0f] being the Sum of the Constants 2
and 3, where the operator on two Expressions folds them into the Constant
5. *)
Theorem multi_float_overloads_do_not_fold :
  M.operator_plus_Ef (M.Constant (of_Z 2)) (of_Z 3)
  = M.Sum (M.Constant (of_Z 2)) (M.Constant (of_Z 3))
  /\ M.operator_plus (M.Constant (of_Z 2)) (M.Constant (of_Z 3))
     = M.Constant (of_Z 5)
  /\ (forall op a c,
        M.both_children_Constant (M.overload_Ef op (M.Constant a) c) = true
        /\ M.both_children_Constant (M.overload_fE op c (M.Constant a)) = true
        /\ M.folded (M.overload_Ef op (M.Constant a) c) = false
        /\ M.folded (M.builder op (M.Constant a) (M.Constant c)) = true).
Proof.
  repeat apply conj; try reflexivity.
  intros [] a c; repeat apply conj; reflexivity.
Qed.

(** In the single-variable engine subtracting a float and subtracting the
promoted Constant evaluate to the same float, unless the left operand is
the literal zero. *)
Lemma single_minus_Ef_call (e : S.Expression) (c x : float) :
  e <> S.ZeroExpr ->
  S.call (S.operator_minus_Ef e c) x
  = S.call (S.spec_combine_Ef S.Minus e c) x.
Proof.
  intros He.
  unfold S.operator_minus_Ef, S.spec_combine_Ef, S.builder,
    S.operator_plus, S.operator_minus.
  destruct e; try congruence; cbn -[add sub neg]; now rewrite !sub_add_neg.
Qed.

(** In the multi-variable engine a float overload and the builder on the
promoted Constant evaluate to the same float. *)
Lemma multi_overloads_call (op : M.Operator) (e : M.Expression) (c : float)
    (x : M.EvalVariable) (args : list M.EvalVariable) :
  M.call (M.overload_Ef op e c) x args
  = M.call (M.spec_combine_Ef op e c) x args
  /\ M.call (M.overload_fE op c e) x args
     = M.call (M.spec_combine_fE op c e) x args.
Proof.
  unfold M.spec_combine_Ef, M.spec_combine_fE.
  rewrite !multi_call_builder. destruct op; split; reflexivity.
Qed.

(** C4, as amended.  In the single-variable engine every float overload is
the builder applied to the operand and the promoted Constant, but for
[e - c], which is the builder's sum of [e] and the Constant [-c]; that sum
evaluates as [e - Constant c] does at every argument when [e] is not the
literal zero.  In the multi-variable engine a float overload on an operand
that is no Constant is the builder applied to the operand and the promoted
Constant, and on every operand the two evaluate to the same float at all
bindings. *)
Theorem float_overloads_promote :
  (forall op e c,
      op <> S.Minus -> S.overload_Ef op e c = S.spec_combine_Ef op e c)
  /\ (forall op c e, S.overload_fE op c e = S.spec_combine_fE op c e)
  /\ (forall e c,
        S.overload_Ef S.Minus e c = S.spec_combine_Ef S.Plus e (neg c))
  /\ (forall e c x,
        e <> S.ZeroExpr ->
        S.call (S.overload_Ef S.Minus e c) x
        = S.call (S.spec_combine_Ef S.Minus e c) x)
  /\ (forall op e c,
        M.Constant_value e = None ->
        M.overload_Ef op e c = M.spec_combine_Ef op e c
        /\ M.overload_fE op c e = M.spec_combine_fE op c e)
  /\ (forall op e c x args,
        M.call (M.overload_Ef op e c) x args
        = M.call (M.spec_combine_Ef op e c) x args
        /\ M.call (M.overload_fE op c e) x args
           = M.call (M.spec_combine_fE op c e) x args).
Proof.
  repeat apply conj.
  - intros [] e c Hop; try reflexivity. congruence.
  - intros [] c e; reflexivity.
  - reflexivity.
  - intros e c x He. now apply single_minus_Ef_call.
  - intros op e c He.
    unfold M.spec_combine_Ef, M.spec_combine_fE.
    destruct op; cbn [M.overload_Ef M.overload_fE M.builder];
      unfold M.operator_plus, M.operator_minus, M.operator_times,
        M.operator_div; rewrite He; cbn [M.Constant_value];
      split; reflexivity.
  - intros op e c x args. apply multi_overloads_call.
Qed.

(** C4 as amended, at [x * 2.0f], [x - 1.0f] and [y / 2.0f]. *)
Lemma float_overloads_promote_witness :
  S.overload_Ef S.Times S.Var (of_Z 2)
  = S.spec_combine_Ef S.Times S.Var (of_Z 2)
  /\ S.call (S.overload_Ef S.Minus S.Var (of_Z 1)) (of_Z 3)
     = S.call (S.spec_combine_Ef S.Minus S.Var (of_Z 1)) (of_Z 3)
  /\ M.overload_Ef M.Div (M.Var (M.Variable_new 1%positive)) (of_Z 2)
     = M.spec_combine_Ef M.Div (M.Var (M.Variable_new 1%positive)) (of_Z 2).
Proof.
  destruct float_overloads_promote as (H1 & _ & _ & H4 & H5 & _).
  repeat apply conj.
  - apply H1. discriminate.
  - apply H4. discriminate.
  - apply H5. reflexivity.
Defined.

(** C4 as stated fails: in the single-variable engine [x - 1.0f] is the
Sum of [x] and the Constant -1, where the rule on the promoted Constant
gives the Difference of [x] and the Constant 1. *)
Lemma float_overloads_promote_counterexample :
  S.overload_Ef S.Minus S.Var (of_Z 1)
  = S.Sum S.Var (S.Constant (of_Z (-1)))
  /\ S.spec_combine_Ef S.Minus S.Var (of_Z 1)
     = S.Difference S.Var (S.Constant (of_Z 1))
  /\ S.overload_Ef S.Minus S.Var (of_Z 1)
     <> S.spec_combine_Ef S.Minus S.Var (of_Z 1).
Proof.
  repeat apply conj; try reflexivity. discriminate.
Qed.

(** The product rule in the single-variable engine, up to the sign of a
zero, where the four values are finite. *)
Lemma single_product_rule (f g : S.Expression) (x : float) :
  is_finite (S.call f x) = true ->
  is_finite (S.call g x) = true ->
  is_finite (S.call (S.dx f) x) = true ->
  is_finite (S.call (S.dx g) x) = true ->
  same_up_to_zero_sign
    (S.call (S.dx (S.operator_times f g)) x)
    (add (mul (S.call (S.dx f) x) (S.call g x))
         (mul (S.call f x) (S.call (S.dx g) x))).
Proof.
  intros Ff Fg Ff' Fg'.
  unfold S.operator_times.
  destruct (S.is_ZeroExpr f) eqn:Hf.
  { apply single_is_ZeroExpr_inv in Hf; subst f. cbn [orb S.dx S.call].
    apply same_zeros; [reflexivity |].
    apply add_zeros; now apply mul_zero_l. }
  destruct (S.is_ZeroExpr g) eqn:Hg.
  { apply single_is_ZeroExpr_inv in Hg; subst g. cbn [orb S.dx S.call].
    apply same_zeros; [reflexivity |].
    apply add_zeros; now apply mul_zero_r. }
  cbn [orb].
  destruct (S.is_OneExpr f) eqn:Hf1.
  { apply single_is_OneExpr_inv in Hf1; subst f. cbn [S.dx S.call].
    rewrite of_Z_1, (mul_one_l _ Fg').
    apply same_sym, add_zero_l. now apply mul_zero_l. }
  destruct (S.is_OneExpr g) eqn:Hg1.
  { apply single_is_OneExpr_inv in Hg1; subst g. cbn [S.dx S.call].
    rewrite of_Z_1, (mul_one_r _ Ff').
    apply same_sym, add_zero_r. now apply mul_zero_r. }
  assert (Hnode :
    same_up_to_zero_sign
      (S.call (S.dx (S.Product f g)) x)
      (add (mul (S.call (S.dx f) x) (S.call g x))
           (mul (S.call f x) (S.call (S.dx g) x)))).
  { cbn [S.dx].
    eapply same_trans; [apply single_call_operator_plus |].
    apply add_same; now apply single_call_operator_times. }
  destruct (S.Constant_value f) as [a |] eqn:Ha;
    [destruct (S.Constant_value g) as [b |] eqn:Hb |]; try exact Hnode.
  destruct f; try discriminate; destruct g; try discriminate.
  cbn [S.dx S.call] in *.
  apply same_zeros; [reflexivity |].
  apply add_zeros; [now apply mul_zero_l | now apply mul_zero_r].
Qed.

(** The product rule in the multi-variable engine: exact when the product
is a Product node, up to the sign of a zero when two finite Constants are
folded. *)
Lemma multi_product_rule_exact (f g : M.Expression) (v : M.VariableExpr)
    (x : M.EvalVariable) (args : list M.EvalVariable) :
  M.Constant_value f = None \/ M.Constant_value g = None ->
  M.call (M.dx (M.operator_times f g) v) x args
  = add (mul (M.call (M.dx f v) x args) (M.call g x args))
        (mul (M.call f x args) (M.call (M.dx g v) x args)).
Proof.
  intros H.
  assert (Hp : M.operator_times f g = M.Product f g).
  { unfold M.operator_times.
    destruct H as [-> | H]; [reflexivity |].
    rewrite H. now destruct (M.Constant_value f). }
  rewrite Hp. apply multi_call_dx_Product.
Qed.

Lemma multi_product_rule (f g : M.Expression) (v : M.VariableExpr)
    (x : M.EvalVariable) (args : list M.EvalVariable) :
  is_finite (M.call f x args) = true ->
  is_finite (M.call g x args) = true ->
  same_up_to_zero_sign
    (M.call (M.dx (M.operator_times f g) v) x args)
    (add (mul (M.call (M.dx f v) x args) (M.call g x args))
         (mul (M.call f x args) (M.call (M.dx g v) x args))).
Proof.
  intros Ff Fg.
  destruct (M.Constant_value f) as [a |] eqn:Ha;
    [destruct (M.Constant_value g) as [b |] eqn:Hb |].
  - destruct f; try discriminate; destruct g; try discriminate.
    cbn [M.operator_times M.Constant_value M.dx M.call] in *.
    apply same_zeros; [reflexivity |].
    apply add_zeros; [now apply mul_zero_l | now apply mul_zero_r].
  - left. apply multi_product_rule_exact. now right.
  - left. apply multi_product_rule_exact. now left.
Qed.

(** C6, as amended.  In the single-variable engine, wherever [f], [g],
[f.dx()] and [g.dx()] evaluate to finite floats, the derivative of the
product [f * g] evaluates to the float [f.dx()(b) * g(b) + f(b) * g.dx()(b)]
up to the sign of a zero.  In the multi-variable engine the same holds
wherever [f] and [g] evaluate to finite floats, and when [f] and [g] are
not both Constants the two floats are the same at every binding. *)
Theorem product_rule :
  (forall f g x,
      is_finite (S.call f x) = true ->
      is_finite (S.call g x) = true ->
      is_finite (S.call (S.dx f) x) = true ->
      is_finite (S.call (S.dx g) x) = true ->
      same_up_to_zero_sign
        (S.call (S.dx (S.operator_times f g)) x)
        (add (mul (S.call (S.dx f) x) (S.call g x))
             (mul (S.call f x) (S.call (S.dx g) x))))
  /\ (forall f g v x args,
        is_finite (M.call f x args) = true ->
        is_finite (M.call g x args) = true ->
        same_up_to_zero_sign
          (M.call (M.dx (M.operator_times f g) v) x args)
          (add (mul (M.call (M.dx f v) x args) (M.call g x args))
               (mul (M.call f x args) (M.call (M.dx g v) x args))))
  /\ (forall f g v x args,
        M.Constant_value f = None \/ M.Constant_value g = None ->
        M.call (M.dx (M.operator_times f g) v) x args
        = add (mul (M.call (M.dx f v) x args) (M.call g x args))
              (mul (M.call f x args) (M.call (M.dx g v) x args))).
Proof.
  repeat apply conj.
  - exact single_product_rule.
  - exact multi_product_rule.
  - exact multi_product_rule_exact.
Qed.

(** C6 as amended, at [f = x + x] and [g = x * x] for [x = 3] in the
single-variable engine, and at [f = x], [g = 4 * y] for
[x = 10, y = 200] in the multi-variable one. *)
Lemma product_rule_witness :
  same_up_to_zero_sign
    (S.call (S.dx (S.operator_times (S.operator_plus S.Var S.Var)
                                    (S.operator_times S.Var S.Var)))
            (of_Z 3))
    (of_Z 54)
  /\ M.call (M.dx (M.operator_times
                     (M.Var (M.Variable_new 1%positive))
                     (M.operator_times_fE (of_Z 4)
                        (M.Var (M.Variable_new 2%positive))))
                  (M.Variable_new 2%positive))
            (M.bind (M.Variable_new 1%positive) (of_Z 10))
            [M.bind (M.Variable_new 2%positive) (of_Z 200)]
     = of_Z 40.
Proof.
  destruct product_rule as (HS & _ & HM).
  split.
  - apply (HS (S.operator_plus S.Var S.Var) (S.operator_times S.Var S.Var)
              (of_Z 3)); reflexivity.
  - apply (HM (M.Var (M.Variable_new 1%positive))
              (M.operator_times_fE (of_Z 4) (M.Var (M.Variable_new 2%positive)))
              (M.Variable_new 2%positive)
              (M.bind (M.Variable_new 1%positive) (of_Z 10))
              [M.bind (M.Variable_new 2%positive) (of_Z 200)]).
    now left.
Defined.

(** C6 as stated fails.  In the multi-variable engine take [f] the
Constant that [1 / 0] folds to and [g] the Constant 1: the derivative of
[f * g] evaluates to 0, the right-hand side [0 * 1 + inf * 0] is a NaN.
In the single-variable engine take [f] the literal zero and [g = 1 / x]
at [x = 0]: the derivative of [f * g] evaluates to 0, the right-hand side
[0 * inf + 0 * -inf] is a NaN. *)
Lemma product_rule_counterexample :
  (let f := M.operator_div (M.Constant (of_Z 1)) (M.Constant (of_Z 0)) in
   let g := M.Constant (of_Z 1) in
   let v := M.Variable_new 1%positive in
   let b := M.bind v (of_Z 10) in
   M.call (M.dx (M.operator_times f g) v) b [] = zero
   /\ add (mul (M.call (M.dx f v) b []) (M.call g b []))
          (mul (M.call f b []) (M.call (M.dx g v) b [])) = S754_nan
   /\ M.call (M.dx (M.operator_times f g) v) b []
      <> add (mul (M.call (M.dx f v) b []) (M.call g b []))
             (mul (M.call f b []) (M.call (M.dx g v) b [])))
  /\ (let f := S.ZeroExpr in
      let g := S.operator_div S.OneExpr S.Var in
      let x := of_Z 0 in
      S.call (S.dx (S.operator_times f g)) x = zero
      /\ add (mul (S.call (S.dx f) x) (S.call g x))
             (mul (S.call f x) (S.call (S.dx g) x)) = S754_nan
      /\ S.call (S.dx (S.operator_times f g)) x
         <> add (mul (S.call (S.dx f) x) (S.call g x))
                (mul (S.call f x) (S.call (S.dx g) x))).
Proof.
  repeat apply conj; try reflexivity; vm_compute; discriminate.
Qed.

End BothEngines.

(** ** Further properties of the single-variable engine *)

Module SingleMore.
Import singleVarDiff SingleShape Float32Facts SingleFacts.

Lemma sub_zero_r (x : float) : sub x zero = x.
Proof. destruct x as [[] | | |]; reflexivity. Qed.

(** The difference the builder returns evaluates to the float difference
of its operands. *)
Lemma single_call_operator_minus (l r : Expression) (x : float) :
  call (operator_minus l r) x = sub (call l x) (call r x).
Proof.
  unfold operator_minus.
  destruct (is_ZeroExpr r) eqn:Hr.
  { apply single_is_ZeroExpr_inv in Hr as ->. cbn [call].
    now rewrite of_Z_0, sub_zero_r. }
  destruct (Constant_value l) as [a |] eqn:Ha;
    [destruct (Constant_value r) as [b |] eqn:Hb |]; try reflexivity.
  cbn [call].
  now rewrite (single_call_Constant_value l a x Ha),
              (single_call_Constant_value r b x Hb).
Qed.

(** A Constant, tagged or not, has the literal zero for derivative. *)
Lemma single_dx_Constant_value (e : Expression) (v : float) :
  Constant_value e = Some v -> dx e = ZeroExpr.
Proof. destruct e; try discriminate; reflexivity. Qed.

(** X1: evaluation of what the builder returns: the float sum up to the sign
of a zero, the float difference, and the float product up to the sign of
a zero where both operands are finite. *)
Theorem single_builder_evaluates (l r : Expression) (x : float) :
  same_up_to_zero_sign (call (operator_plus l r) x)
                       (add (call l x) (call r x))
  /\ call (operator_minus l r) x = sub (call l x) (call r x)
  /\ (is_finite (call l x) = true -> is_finite (call r x) = true ->
      same_up_to_zero_sign (call (operator_times l r) x)
                           (mul (call l x) (call r x))).
Proof.
  repeat apply conj.
  - apply single_call_operator_plus.
  - apply single_call_operator_minus.
  - apply single_call_operator_times.
Qed.

Lemma single_builder_evaluates_witness :
  same_up_to_zero_sign (call (operator_times Var ZeroExpr) (of_Z 3))
                       (mul (of_Z 3) zero).
Proof.
  apply (proj2 (proj2 (single_builder_evaluates Var ZeroExpr (of_Z 3))));
    reflexivity.
Defined.

(** X2: the quotient by the literal zero never evaluates to the float
quotient: it evaluates to 0, the float quotient by 0 is an infinity or a
NaN. *)
Theorem single_quotient_by_literal_zero_is_not_division
    (e : Expression) (x : float) :
  call (operator_div e ZeroExpr) x = zero
  /\ ~ same_up_to_zero_sign (call (operator_div e ZeroExpr) x)
                            (div (call e x) (call ZeroExpr x)).
Proof.
  assert (H : operator_div e ZeroExpr = ZeroExpr) by reflexivity.
  rewrite H. cbn [call]. rewrite of_Z_0. split; [reflexivity |].
  destruct (div_by_zero (call e x) false) as [Hd | Hd];
    fold zero in Hd; intros [Heq | [_ Hz]].
  - rewrite <- Heq in Hd. discriminate.
  - destruct (div (call e x) zero); discriminate.
  - rewrite <- Heq in Hd. discriminate.
  - destruct (div (call e x) zero); discriminate.
Qed.

(** X3: linearity of the derivative: the derivative of a sum evaluates to the
sum of the derivatives up to the sign of a zero, the derivative of a
difference to the difference of the derivatives. *)
Theorem single_derivative_linear (f g : Expression) (x : float) :
  same_up_to_zero_sign (call (dx (operator_plus f g)) x)
                       (add (call (dx f) x) (call (dx g) x))
  /\ call (dx (operator_minus f g)) x
     = sub (call (dx f) x) (call (dx g) x).
Proof.
  split.
  - unfold operator_plus.
    destruct (is_ZeroExpr f) eqn:Hf.
    { apply single_is_ZeroExpr_inv in Hf as ->. cbn [dx call].
      apply same_sym, add_zero_l. reflexivity. }
    destruct (is_ZeroExpr g) eqn:Hg.
    { apply single_is_ZeroExpr_inv in Hg as ->. cbn [dx call].
      apply same_sym, add_zero_r. reflexivity. }
    destruct (Constant_value f) as [a |] eqn:Ha;
      [destruct (Constant_value g) as [b |] eqn:Hb |];
      try (cbn [dx]; apply single_call_operator_plus).
    rewrite (single_dx_Constant_value f a Ha),
            (single_dx_Constant_value g b Hb).
    now left.
  - unfold operator_minus.
    destruct (is_ZeroExpr g) eqn:Hg.
    { apply single_is_ZeroExpr_inv in Hg as ->. cbn [dx call].
      now rewrite of_Z_0, sub_zero_r. }
    destruct (Constant_value f) as [a |] eqn:Ha;
      [destruct (Constant_value g) as [b |] eqn:Hb |];
      try (cbn [dx]; apply single_call_operator_minus).
    rewrite (single_dx_Constant_value f a Ha),
            (single_dx_Constant_value g b Hb).
    reflexivity.
Qed.

Lemma single_times_ZeroExpr_r (l : Expression) :
  operator_times l ZeroExpr = ZeroExpr.
Proof. unfold operator_times. now rewrite orb_true_r. Qed.

Lemma single_div_ZeroExpr_l (r : Expression) :
  operator_div ZeroExpr r = ZeroExpr.
Proof. unfold operator_div. now destruct (is_ZeroExpr r). Qed.

(** X4: the derivative of a tree without a Variable leaf is the literal zero
itself. *)
Theorem single_derivative_of_closed (e : Expression) :
  has_Var e = false -> dx e = ZeroExpr.
Proof.
  induction e as [| | v | | l IHl r IHr | l IHl r IHr
                  | l IHl r IHr | l IHl r IHr];
    cbn [has_Var dx]; intros H; try reflexivity; try discriminate;
    apply orb_false_elim in H as [Hl Hr];
    rewrite (IHl Hl), (IHr Hr); try reflexivity.
  - now rewrite single_times_ZeroExpr_r.
  - rewrite single_times_ZeroExpr_r.
    change (operator_times ZeroExpr r) with ZeroExpr.
    change (operator_minus ZeroExpr ZeroExpr) with ZeroExpr.
    apply single_div_ZeroExpr_l.
Qed.

Lemma single_derivative_of_closed_witness :
  dx (operator_div (Constant (of_Z 3)) (operator_plus OneExpr (Constant (of_Z 2))))
  = ZeroExpr.
Proof. apply single_derivative_of_closed. reflexivity. Defined.

End SingleMore.

(** ** The simplified form of the single-variable engine *)

Module SingleInvariant.
Import singleVarDiff SingleShape Float32Facts SingleFacts.

Lemma single_simplified_children (op : Operator) (l r : Expression) :
  simplified (node op l r) = true ->
  simplified l = true /\ simplified r = true.
Proof.
  destruct op; cbn [node simplified]; intros H;
    repeat (apply andb_prop in H as [H ?]); split; assumption.
Qed.

(** The four operators keep the simplified form. *)
Lemma single_builder_simplified (op : Operator) (l r : Expression) :
  simplified l = true -> simplified r = true ->
  simplified (builder op l r) = true.
Proof.
  intros Hl Hr.
  destruct op; cbn [builder];
    unfold operator_plus, operator_minus, operator_times, operator_div;
    destruct (is_ZeroExpr l) eqn:Hl0; destruct (is_ZeroExpr r) eqn:Hr0;
    cbn [orb]; try assumption; try reflexivity;
    destruct (is_OneExpr l) eqn:Hl1; destruct (is_OneExpr r) eqn:Hr1;
    try assumption; try reflexivity;
    destruct (Constant_value l) eqn:Ha; destruct (Constant_value r) eqn:Hb;
    try reflexivity;
    cbn [simplified]; unfold both_Constant;
    rewrite ?Hl0, ?Hr0, ?Hl1, ?Hr1, ?Ha, ?Hb, Hl, Hr; reflexivity.
Qed.

(** A simplified node is what the operator returns on its two children. *)
Lemma single_builder_on_simplified (op : Operator) (l r : Expression) :
  simplified (node op l r) = true -> builder op l r = node op l r.
Proof.
  destruct op; cbn [node simplified builder]; intros H;
    repeat (apply andb_prop in H as [H ?]);
    unfold operator_plus, operator_minus, operator_times, operator_div;
    unfold both_Constant in *;
    repeat match goal with
      | Hn : negb ?b = true |- _ =>
          apply negb_true_iff in Hn; try rewrite Hn
      end;
    cbn [orb];
    destruct (Constant_value l); try reflexivity;
    destruct (Constant_value r); try reflexivity; discriminate.
Qed.

(** Differentiation keeps the simplified form. *)
Lemma single_dx_simplified (e : Expression) :
  simplified e = true -> simplified (dx e) = true.
Proof.
  induction e as [| | v | | l IHl r IHr | l IHl r IHr
                  | l IHl r IHr | l IHl r IHr];
    intros H; try reflexivity; cbn [dx].
  - apply (single_simplified_children Plus) in H as [Hl Hr].
    apply (single_builder_simplified Plus); auto.
  - apply (single_simplified_children Minus) in H as [Hl Hr].
    apply (single_builder_simplified Minus); auto.
  - apply (single_simplified_children Times) in H as [Hl Hr].
    apply (single_builder_simplified Plus);
      apply (single_builder_simplified Times); auto.
  - apply (single_simplified_children Div) in H as [Hl Hr].
    apply (single_builder_simplified Div).
    + apply (single_builder_simplified Minus);
        apply (single_builder_simplified Times); auto.
    + apply (single_builder_simplified Times); auto.
Qed.

(** X5: the simplified form is an invariant of the single-variable engine: the
four operators, the eight float overloads and [dx] return a simplified
tree when their operands are simplified, and an operator applied again to
the children of a simplified node returns that node. *)
Theorem single_simplified_invariant :
  (forall op l r,
      simplified l = true -> simplified r = true ->
      simplified (builder op l r) = true)
  /\ (forall op e c,
        simplified e = true ->
        simplified (overload_Ef op e c) = true
        /\ simplified (overload_fE op c e) = true)
  /\ (forall e, simplified e = true -> simplified (dx e) = true)
  /\ (forall op l r,
        simplified (node op l r) = true -> builder op l r = node op l r).
Proof.
  repeat apply conj.
  - exact single_builder_simplified.
  - intros op e c He. split.
    + destruct op; cbn [overload_Ef];
        [ apply (single_builder_simplified Plus)
        | apply (single_builder_simplified Plus)
        | apply (single_builder_simplified Times)
        | apply (single_builder_simplified Div) ]; auto.
    + destruct op; cbn [overload_fE];
        [ apply (single_builder_simplified Plus)
        | apply (single_builder_simplified Minus)
        | apply (single_builder_simplified Times)
        | apply (single_builder_simplified Div) ]; auto.
  - exact single_dx_simplified.
  - exact single_builder_on_simplified.
Qed.

Lemma single_simplified_invariant_witness :
  simplified (dx (operator_div (operator_times Var Var)
                               (operator_plus_Ef Var (of_Z 5)))) = true.
Proof.
  apply (proj1 (proj2 (proj2 single_simplified_invariant))).
  reflexivity.
Defined.

(** X6: a float operand is never eliminated: on an operand that is no
Constant, every float overload returns the composite node with the
Constant of the float as a child, whatever the float is, 0 and 1
included.  The eliminations are decided by the tags of the literal types
alone. *)
Theorem single_float_operand_is_kept (e : Expression) (c : float) :
  Constant_value e = None ->
  operator_plus_Ef e c = Sum e (Constant c)
  /\ operator_plus_fE c e = Sum (Constant c) e
  /\ operator_minus_Ef e c = Sum e (Constant (neg c))
  /\ operator_minus_fE c e = Difference (Constant c) e
  /\ operator_times_Ef e c = Product e (Constant c)
  /\ operator_times_fE c e = Product (Constant c) e
  /\ operator_div_Ef e c = Quotient e (Constant c)
  /\ operator_div_fE c e = Quotient (Constant c) e.
Proof.
  intros He. destruct e; try discriminate; repeat apply conj; reflexivity.
Qed.

Lemma single_float_operand_is_kept_witness :
  operator_times_Ef Var one = Product Var (Constant one)
  /\ operator_plus_Ef Var zero = Sum Var (Constant zero).
Proof.
  destruct (single_float_operand_is_kept Var one) as (_ & _ & _ & _ & H & _);
    [reflexivity |].
  destruct (single_float_operand_is_kept Var zero) as (H0 & _);
    [reflexivity |].
  split; assumption.
Defined.

End SingleInvariant.

(** ** Further properties of the multi-variable engine *)

Module MultiMore.
Import multiVarDiff MultiShape Float32Facts MultiFacts.

(** X8: what the operators and the float overloads return evaluates to the
float operation on the values of the operands, at every list of
bindings: folding two Constants does not change a value. *)
Theorem multi_builder_evaluates (op : Operator) (l r : Expression)
    (c : float) (x : EvalVariable) (args : list EvalVariable) :
  call (builder op l r) x args = float_op op (call l x args) (call r x args)
  /\ call (overload_Ef op l c) x args = float_op op (call l x args) c
  /\ call (overload_fE op c r) x args = float_op op c (call r x args).
Proof.
  repeat apply conj.
  - apply multi_call_builder.
  - destruct op; reflexivity.
  - destruct op; reflexivity.
Qed.

Lemma multi_dx_Constant_value (e : Expression) (a : float) (v : VariableExpr) :
  Constant_value e = Some a -> dx e v = Constant zero.
Proof. destruct e; try discriminate; reflexivity. Qed.

(** X9: the rules of differentiation hold on the values, float for float: the
derivative of a sum is the sum of the derivatives, the derivative of a
difference their difference, and the derivative of a quotient of two
operands that are not both Constants follows the quotient rule. *)
Theorem multi_derivative_rules (f g : Expression) (v : VariableExpr)
    (x : EvalVariable) (args : list EvalVariable) :
  call (dx (operator_plus f g) v) x args
  = add (call (dx f v) x args) (call (dx g v) x args)
  /\ call (dx (operator_minus f g) v) x args
     = sub (call (dx f v) x args) (call (dx g v) x args)
  /\ (Constant_value f = None \/ Constant_value g = None ->
      call (dx (operator_div f g) v) x args
      = div (sub (mul (call (dx f v) x args) (call g x args))
                 (mul (call f x args) (call (dx g v) x args)))
            (mul (call g x args) (call g x args))).
Proof.
  repeat apply conj.
  - unfold operator_plus.
    destruct (Constant_value f) as [a |] eqn:Ha;
      [destruct (Constant_value g) as [b |] eqn:Hb |];
      try (cbn [dx]; apply (multi_call_builder Plus)).
    now rewrite (multi_dx_Constant_value f a v Ha),
                (multi_dx_Constant_value g b v Hb).
  - unfold operator_minus.
    destruct (Constant_value f) as [a |] eqn:Ha;
      [destruct (Constant_value g) as [b |] eqn:Hb |];
      try (cbn [dx]; apply (multi_call_builder Minus)).
    now rewrite (multi_dx_Constant_value f a v Ha),
                (multi_dx_Constant_value g b v Hb).
  - intros H.
    assert (Hq : operator_div f g = Quotient f g).
    { unfold operator_div.
      destruct H as [-> | H]; [reflexivity |].
      rewrite H. now destruct (Constant_value f). }
    rewrite Hq. cbn [dx].
    rewrite (multi_call_builder Div), (multi_call_builder Minus),
      !(multi_call_builder Times).
    reflexivity.
Qed.

Lemma multi_derivative_rules_witness :
  let x := Variable_new 1%positive in
  call (dx (operator_div (Var x) (operator_plus_Ef (Var x) (of_Z 1))) x)
       (bind x (of_Z 1)) []
  = div (of_Z 1) (of_Z 4).
Proof.
  intros x.
  apply (proj2 (proj2 (multi_derivative_rules
           (Var x) (operator_plus_Ef (Var x) (of_Z 1)) x (bind x (of_Z 1)) []))).
  now left.
Defined.

Lemma multi_folded_children (op : Operator) (l r : Expression) :
  folded (node op l r) = true -> folded l = true /\ folded r = true.
Proof.
  destruct op; cbn [node folded]; intros H;
    repeat (apply andb_prop in H as [H ?]); split; assumption.
Qed.

(** X10: the operators on two Expressions and [dx] keep the trees folded: from
trees without a node with two Constant children they never make one. *)
Theorem multi_folded_invariant :
  (forall op l r,
      folded l = true -> folded r = true -> folded (builder op l r) = true)
  /\ (forall e v, folded e = true -> folded (dx e v) = true).
Proof.
  split; [exact multi_builder_folded |].
  intros e v.
  induction e as [a | w | l IHl r IHr | l IHl r IHr
                  | l IHl r IHr | l IHl r IHr];
    intros H; try reflexivity; cbn [dx].
  - apply (multi_folded_children Plus) in H as [Hl Hr].
    apply (multi_builder_folded Plus); auto.
  - apply (multi_folded_children Minus) in H as [Hl Hr].
    apply (multi_builder_folded Minus); auto.
  - apply (multi_folded_children Times) in H as [Hl Hr].
    apply (multi_builder_folded Plus);
      apply (multi_builder_folded Times); auto.
  - apply (multi_folded_children Div) in H as [Hl Hr].
    apply (multi_builder_folded Div).
    + apply (multi_builder_folded Minus);
        apply (multi_builder_folded Times); auto.
    + apply (multi_builder_folded Times); auto.
Qed.

Lemma multi_folded_invariant_witness :
  let x := Variable_new 1%positive in
  folded (dx (operator_times (Var x) (operator_plus (Var x) (Constant one))) x)
  = true.
Proof.
  intros x. apply (proj2 multi_folded_invariant). reflexivity.
Defined.

End MultiMore.

(** ** Bindings of the multi-variable engine *)

Module MultiBindings.
Import multiVarDiff MultiShape Float32Facts MultiFacts.

(** X11: the value of a tree depends on the bindings only through the values
they give to the Variables that occur in it. *)
Theorem multi_call_coincidence (e : Expression)
    (x x' : EvalVariable) (args args' : list EvalVariable) :
  (forall v, occurs (var_initAddress v) e = true ->
             Variable_call v x args = Variable_call v x' args') ->
  call e x args = call e x' args'.
Proof.
  induction e as [a | w | l IHl r IHr | l IHl r IHr
                  | l IHl r IHr | l IHl r IHr];
    cbn [call occurs]; intros H.
  - reflexivity.
  - apply H. apply Pos.eqb_refl.
  - rewrite IHl, IHr; [reflexivity | |];
      intros v Hv; apply H; rewrite Hv; auto using orb_true_r.
  - rewrite IHl, IHr; [reflexivity | |];
      intros v Hv; apply H; rewrite Hv; auto using orb_true_r.
  - rewrite IHl, IHr; [reflexivity | |];
      intros v Hv; apply H; rewrite Hv; auto using orb_true_r.
  - rewrite IHl, IHr; [reflexivity | |];
      intros v Hv; apply H; rewrite Hv; auto using orb_true_r.
Qed.

Lemma multi_call_coincidence_witness :
  let x := Variable_new 1%positive in
  let y := Variable_new 2%positive in
  call (operator_times (Var x) (Var x)) (bind x (of_Z 3)) [bind y (of_Z 7)]
  = call (operator_times (Var x) (Var x)) (bind y (of_Z 8)) [bind x (of_Z 3)].
Proof.
  intros x y. apply multi_call_coincidence.
  intros v Hv. cbn in Hv. rewrite orb_diag in Hv.
  apply Pos.eqb_eq in Hv. destruct v as [a]. cbn in Hv. subst a.
  reflexivity.
Defined.

(** A binding found in a list whose bindings have distinct addresses is
the first match of its Variable. *)
Lemma multi_first_match_unique (this : VariableExpr)
    (l : list EvalVariable) (b : EvalVariable) :
  NoDup (map initAddress l) -> In b l ->
  initAddress b = var_initAddress this ->
  first_match this l = Some b.
Proof.
  unfold first_match. intros Hnd Hin Hb.
  induction l as [| c l IH]; [contradiction |].
  cbn [map] in Hnd. inversion Hnd as [| ? ? Hc Hnd']; subst.
  cbn [find]. destruct Hin as [<- | Hin].
  - now rewrite (proj2 (Pos.eqb_eq _ _) Hb).
  - destruct (Pos.eqb_spec (initAddress c) (var_initAddress this)) as [Hc' |].
    + exfalso. apply Hc. rewrite Hc', <- Hb. now apply in_map.
    + now apply IH.
Qed.

(** Permuting a list of bindings with distinct addresses does not change
the first match of any Variable. *)
Lemma multi_first_match_Permutation (this : VariableExpr)
    (l l' : list EvalVariable) :
  NoDup (map initAddress l) -> Permutation l l' ->
  first_match this l = first_match this l'.
Proof.
  intros Hnd Hp.
  assert (Hnd' : NoDup (map initAddress l')).
  { eapply Permutation_NoDup; [apply Permutation_map; exact Hp | exact Hnd]. }
  destruct (first_match this l) as [b |] eqn:Hl.
  - unfold first_match in Hl. apply find_some in Hl as [Hin Hb].
    apply Pos.eqb_eq in Hb. symmetry.
    apply multi_first_match_unique; auto.
    eapply Permutation_in; eassumption.
  - destruct (first_match this l') as [b' |] eqn:Hl'; [| reflexivity].
    unfold first_match in Hl, Hl'. apply find_some in Hl' as [Hin Hb].
    apply Permutation_sym in Hp.
    pose proof (find_none _ _ Hl b' (Permutation_in _ Hp Hin)) as Hf.
    cbn beta in Hf. congruence.
Qed.

(** X12: the order of the bindings does not matter when no Variable is bound
twice: a tree evaluates to the same float on any permutation of bindings
with distinct addresses. *)
Theorem multi_call_Permutation (e : Expression)
    (x x' : EvalVariable) (args args' : list EvalVariable) :
  NoDup (map initAddress (x :: args)) ->
  Permutation (x :: args) (x' :: args') ->
  call e x args = call e x' args'.
Proof.
  intros Hnd Hp. apply multi_call_coincidence. intros v _.
  rewrite !MultiClaims.multi_Variable_call_first_match.
  now rewrite (multi_first_match_Permutation v _ _ Hnd Hp).
Qed.

Lemma multi_call_Permutation_witness :
  call (main.expression 1%positive 2%positive 3%positive)
       (bind (main.x 1%positive) (of_Z 10)) [bind (main.y 2%positive) (of_Z 200)]
  = call (main.expression 1%positive 2%positive 3%positive)
         (bind (main.y 2%positive) (of_Z 200)) [bind (main.x 1%positive) (of_Z 10)].
Proof.
  apply multi_call_Permutation.
  - repeat constructor; cbn; intuition discriminate.
  - apply perm_swap.
Defined.

(** Appending a binding does not change what a Variable evaluates to,
when the binding has the value 0, or is not one of that Variable, or the
Variable is bound already. *)
Lemma multi_Variable_call_app (this : VariableExpr) (b : EvalVariable)
    (x : EvalVariable) (args : list EvalVariable) :
  value b = zero
  \/ initAddress b <> var_initAddress this
  \/ first_match this (x :: args) <> None ->
  Variable_call this x (args ++ [b]) = Variable_call this x args.
Proof.
  revert x. induction args as [| y args IH]; intros x H;
    cbn [app Variable_call];
    destruct (Pos.eqb (initAddress x) (var_initAddress this)) eqn:Hx;
    try reflexivity.
  - destruct (Pos.eqb_spec (initAddress b) (var_initAddress this)) as [Hb |];
      [| reflexivity].
    destruct H as [H | [H | H]]; [exact H | contradiction |].
    exfalso. apply H. unfold first_match. cbn [find]. now rewrite Hx.
  - apply IH. destruct H as [H | [H | H]]; auto.
    right; right. unfold first_match in *. cbn [find] in *.
    now rewrite Hx in H.
Qed.

(** X13: an unbound Variable evaluates as one bound to 0, and only the first
binding of a Variable counts: appending to the bindings a binding with
the value 0, or a binding of a Variable that is bound already, does not
change the value of any tree. *)
Theorem multi_call_app (e : Expression) (b : EvalVariable)
    (x : EvalVariable) (args : list EvalVariable) :
  value b = zero \/ In (initAddress b) (map initAddress (x :: args)) ->
  call e x (args ++ [b]) = call e x args.
Proof.
  intros H. apply multi_call_coincidence. intros v _.
  apply multi_Variable_call_app.
  destruct H as [H | H]; [now left |].
  destruct (Pos.eqb_spec (initAddress b) (var_initAddress v)) as [Hb |];
    [| now right; left].
  right; right. apply in_map_iff in H as (c & Hc & Hin).
  destruct (first_match v (x :: args)) eqn:Hf; [discriminate |].
  unfold first_match in Hf.
  pose proof (find_none _ _ Hf c Hin) as Hn. cbn beta in Hn.
  apply Pos.eqb_neq in Hn. congruence.
Qed.

Lemma multi_call_app_witness :
  let x := Variable_new 1%positive in
  let y := Variable_new 2%positive in
  let e := operator_plus (Var x) (Var y) in
  call e (bind x (of_Z 10)) ([] ++ [bind y zero]) = call e (bind x (of_Z 10)) []
  /\ call e (bind x (of_Z 10)) ([] ++ [bind x (of_Z 7)])
     = call e (bind x (of_Z 10)) [].
Proof.
  intros x y e. split.
  - apply multi_call_app. now left.
  - apply multi_call_app. right. now left.
Defined.


End MultiBindings.

(** ** Trees without a Variable, and Variables that do not occur *)

Module ClosedTrees.
Import Float32Facts.





Lemma sub_zeros (x y : float) :
  is_zero x = true -> is_zero y = true -> is_zero (sub x y) = true.
Proof.
  intros Hx Hy.
  apply is_zero_inv in Hx as [a ->]; apply is_zero_inv in Hy as [b ->].
  destruct a, b; reflexivity.
Qed.

Lemma div_zero_l (z d : float) :
  is_zero z = true -> is_zero d = false -> is_nan d = false ->
  is_zero (div z d) = true.
Proof.
  intros Hz Hd Hn. apply is_zero_inv in Hz as [s ->].
  destruct d; try discriminate; reflexivity.
Qed.

(** X15: in the multi-variable engine the derivative with respect to a
Variable that does not occur in the tree evaluates to a zero, at all
bindings at which the tree is regular. *)
Theorem multi_derivative_of_absent_variable (e : M.Expression)
    (v : M.VariableExpr) (x : M.EvalVariable) (args : list M.EvalVariable) :
  MultiShape.occurs (M.var_initAddress v) e = false ->
  MultiShape.regular e x args = true ->
  is_zero (M.call (M.dx e v) x args) = true.
Proof.
  induction e as [a | w | l IHl r IHr | l IHl r IHr
                  | l IHl r IHr | l IHl r IHr];
    cbn [MultiShape.occurs MultiShape.regular M.dx]; intros Ho Hr.
  - reflexivity.
  - cbn [M.call]. rewrite Pos.eqb_sym, Ho. reflexivity.
  - apply orb_false_elim in Ho as [Hol Hor].
    apply andb_prop in Hr as [Hrl Hrr].
    rewrite (MultiFacts.multi_call_builder M.Plus). cbn [M.float_op].
    apply add_zeros; auto.
  - apply orb_false_elim in Ho as [Hol Hor].
    apply andb_prop in Hr as [Hrl Hrr].
    rewrite (MultiFacts.multi_call_builder M.Minus). cbn [M.float_op].
    apply sub_zeros; auto.
  - apply orb_false_elim in Ho as [Hol Hor].
    repeat (apply andb_prop in Hr as [Hr ?]).
    rewrite (MultiFacts.multi_call_builder M.Plus),
      !(MultiFacts.multi_call_builder M.Times). cbn [M.float_op].
    apply add_zeros; [apply mul_zero_l | apply mul_zero_r]; auto.
  - apply orb_false_elim in Ho as [Hol Hor].
    repeat (apply andb_prop in Hr as [Hr ?]).
    rewrite (MultiFacts.multi_call_builder M.Div),
      (MultiFacts.multi_call_builder M.Minus),
      !(MultiFacts.multi_call_builder M.Times). cbn [M.float_op].
    apply div_zero_l.
    + apply sub_zeros; [apply mul_zero_l | apply mul_zero_r]; auto.
    + now apply negb_true_iff.
    + now apply negb_true_iff.
Qed.

(** The expression of [main.cpp], differentiated by a Variable [w] that
is neither [x] nor [y], at [x = 10, y = 200]. *)
Lemma multi_derivative_of_absent_variable_witness :
  is_zero
    (M.call (M.dx (main.expression 1%positive 2%positive 3%positive)
                  (M.Variable_new 4%positive))
            (M.bind (main.x 1%positive) (of_Z 10))
            [M.bind (main.y 2%positive) (of_Z 200)])
  = true.
Proof.
  apply multi_derivative_of_absent_variable; reflexivity.
Defined.

End ClosedTrees.
